(** * The CalDAV client of gssync: [src/app/caldav.ts]

    A shallow embedding of class [CalDav]: the three static discovery
    operations, the constructor and the instance operations [search], [put]
    and [delete].  Every operation builds a [request.CoreOptions] value,
    hands it to the HTTP transport and settles one promise from the callback
    the transport later invokes.

    The collaborators the class consumes ([request], [URL], the XML handler
    of [strong-soap], [Logger]) are not part of the file; they appear here as
    the variables of section [Client] or as the trace they leave in the
    [World]. *)

From Stdlib Require Import String Ascii List ZArith Bool Lia.
Import ListNotations.

#[local] Set Warnings "-register-all".

Local Open Scope Z_scope.
Local Open Scope string_scope.

(** ** JavaScript values *)

(** The generic tree the XML handler returns, and the values a promise is
    resolved with.  An object is an ordered list of key/value pairs; reading a
    key takes its first binding. *)
Inductive json : Type :=
| JUndefined
| JString (s : string)
| JArray (items : list json)
| JObject (fields : list (string * json)).

Definition object : Type := list (string * json).

Fixpoint lookup {V : Type} (key : string) (o : list (string * V)) : option V :=
  match o with
  | [] => None
  | (k, v) :: o' => if String.eqb k key then Some v else lookup key o'
  end.

(** [o.key]: the member, or [undefined] when [o] has none. *)
Definition member (key : string) (o : object) : json :=
  match lookup key o with
  | Some v => v
  | None => JUndefined
  end.

(** [x.key] for a value that is only known to be [any]; on anything but an
    object the members this development reads are [undefined]. *)
Definition member_of (key : string) (x : json) : json :=
  match x with
  | JObject o => member key o
  | _ => JUndefined
  end.

(** A response header of Node's [IncomingHttpHeaders]: [string | string[]]. *)
Inductive header_value : Type :=
| HString (s : string)
| HArray (items : list string).

(** ToBoolean, the test an [if (x)] performs. *)
Class ToBoolean (A : Type) : Type := truthy : A -> bool.

#[export] Instance string_ToBoolean : ToBoolean string :=
  fun s => negb (String.eqb s "").

#[export] Instance number_ToBoolean : ToBoolean Z :=
  fun n => negb (Z.eqb n 0).

#[export] Instance header_ToBoolean : ToBoolean header_value :=
  fun h => match h with HString s => truthy s | HArray _ => true end.

#[export] Instance optional_ToBoolean {A : Type} `{ToBoolean A} : ToBoolean (option A) :=
  fun o => match o with Some a => truthy a | None => false end.

(** Comparisons of a possibly [undefined] number: [undefined >= n] and
    [undefined < n] are both false. *)
Definition number_ge (x : option Z) (n : Z) : bool :=
  match x with Some v => Z.leb n v | None => false end.

Definition number_lt (x : option Z) (n : Z) : bool :=
  match x with Some v => Z.ltb v n | None => false end.

(** ** The [request] library's types *)

Module CoreOptions.
Record t : Type := mk {
  method : string;
  headers : option (list (string * string));
  proxy : option string;
  body : option string
}.

(** [options.headers = h] *)
Definition set_headers (h : list (string * string)) (o : t) : t :=
  {| method := method o; headers := Some h; proxy := proxy o; body := body o |}.

(** The value of one request header, [None] when the options carry no such
    header (or no headers at all). *)
Definition header (name : string) (o : t) : option string :=
  match headers o with
  | Some h => lookup name h
  | None => None
  end.
End CoreOptions.

Module RequestResponse.
Record t : Type := mk {
  statusCode : option Z;
  headers : list (string * header_value)
}.

(** [response.headers.etag] *)
Definition etag (r : t) : option header_value := lookup "etag" (headers r).
End RequestResponse.

(** Exceptions thrown by the JavaScript runtime. *)
Inductive exn : Type :=
| TypeError (message : string)
| Error (message : string).

(** ** Strings: template literals and [util.format] *)

Definition dq : string := String "034"%char EmptyString.
Definition nl : string := String "010"%char EmptyString.

(** [q s] is [s] between double quotes, as an XML attribute value is written. *)
Definition q (s : string) : string := dq ++ s ++ dq.

(** A template literal given line by line: the lines joined by a line feed. *)
Definition lines (ls : list string) : string := String.concat nl ls.

Definition is_char (c d : ascii) : bool := Ascii.eqb c d.

(** What [util.format] appends for the arguments no directive consumed: each
    one after a space. *)
Fixpoint format_rest (args : list string) : string :=
  match args with
  | [] => ""
  | a :: args' => " " ++ a ++ format_rest args'
  end.

(** The scan of the format string.  [%s] takes the next argument as it is (an
    argument that is a string is not converted); [%%] gives one percent sign;
    [%s] with no argument left, and a percent sign before any other
    character, stay as they are.  The numeric, JSON and inspect directives
    ([%d %i %f %j %o %O]) are outside this fragment: no template of the class
    uses them (see [search_xml_directives]). *)
Fixpoint format_scan (f : string) (args : list string) : string :=
  match f with
  | EmptyString => format_rest args
  | String c f' =>
      if is_char c "%" then
        match f' with
        | String d f'' =>
            if is_char d "s" then
              match args with
              | a :: args' => a ++ format_scan f'' args'
              | [] => String c (format_scan f' args)
              end
            else if is_char d "%" then String "%" (format_scan f'' args)
            else String c (format_scan f' args)
        | EmptyString => String c (format_rest args)
        end
      else String c (format_scan f' args)
  end.

(** [util.format(f, ...args)] for a string [f] and string arguments; with no
    argument the format string is returned untouched. *)
Definition util_format (f : string) (args : list string) : string :=
  match args with
  | [] => f
  | _ => format_scan f args
  end.

(** The directives of a format string: the character after each percent
    sign, in order. *)
Fixpoint directives (f : string) : list ascii :=
  match f with
  | EmptyString => []
  | String c f' =>
      if is_char c "%" then
        match f' with
        | String d f'' => d :: directives f''
        | EmptyString => []
        end
      else directives f'
  end.

(** A string without percent signs. *)
Fixpoint plain (f : string) : bool :=
  match f with
  | EmptyString => true
  | String c f' => negb (is_char c "%") && plain f'
  end.

(** ** The request bodies: the template literals of the class *)

Definition getCurrentUserPrincipal_xml : string :=
  lines
    [ "";
      "        <d:propfind xmlns:d=" ++ q "DAV:" ++ ">";
      "          <d:prop>";
      "            <d:current-user-principal />";
      "          </d:prop>";
      "        </d:propfind>";
      "        " ].

Definition getCalendarHomeSet_xml : string :=
  lines
    [ "";
      "        <d:propfind xmlns:d=" ++ q "DAV:" ++ " xmlns:c=" ++ q "urn:ietf:params:xml:ns:caldav" ++ ">";
      "          <d:prop>";
      "            <c:calendar-home-set />";
      "          </d:prop>";
      "        </d:propfind>";
      "        " ].

Definition getCalendarComponentSet_xml : string :=
  lines
    [ "";
      "        <d:propfind xmlns:d=" ++ q "DAV:" ++ " xmlns:cs=" ++ q "http://calendarserver.org/ns/" ++ " xmlns:c=" ++ q "urn:ietf:params:xml:ns:caldav" ++ ">";
      "          <d:prop>";
      "           <d:resourcetype />";
      "           <d:displayname />";
      "           <cs:getctag />";
      "           <c:supported-calendar-component-set />";
      "          </d:prop>";
      "        </d:propfind>";
      "        " ].

Definition search_xml : string :=
  lines
    [ "";
      "        <c:calendar-query xmlns:d=" ++ q "DAV:" ++ " xmlns:c=" ++ q "urn:ietf:params:xml:ns:caldav" ++ ">";
      "          <d:prop>";
      "            <d:getetag />";
      "            <c:calendar-data />";
      "          </d:prop>";
      "          <c:filter>";
      "            <c:comp-filter name=" ++ q "VCALENDAR" ++ ">";
      "              <c:comp-filter name=" ++ q "VEVENT" ++ ">";
      "                <c:prop-filter name=" ++ q "%s" ++ ">";
      "                  <c:text-match>%s</c:text-match>";
      "                </c:prop-filter>";
      "              </c:comp-filter>";
      "            </c:comp-filter>";
      "          </c:filter>";
      "        </c:calendar-query>";
      "        " ].

(** The body [search] sends: [util.format(xml, field, id)]. *)
Definition search_body (field id : string) : string :=
  util_format search_xml [field; id].

(** *** Reading a body back: its element tags

    How an XML reader sees the tags of a document, attributes dropped: used
    to state which elements a request body holds and how they nest. *)
Inductive tag : Type :=
| Open (name : string)
| Close (name : string)
| Empty (name : string).

Inductive tag_state : Type :=
| InText
| InName (closing : bool) (name : string)
| InAttrs (closing : bool) (name : string)
| InValue (closing : bool) (name : string).

Definition end_tag (closing : bool) (name : string) : tag :=
  if closing then Close name else Open name.

Fixpoint tags_from (st : tag_state) (s : string) : list tag :=
  match s with
  | EmptyString => []
  | String c s' =>
      match st with
      | InText =>
          if is_char c "<" then tags_from (InName false "") s' else tags_from InText s'
      | InName closing name =>
          if is_char c ">" then end_tag closing name :: tags_from InText s'
          else if is_char c " " then tags_from (InAttrs closing name) s'
          else if is_char c "/" then
            match name, s' with
            | EmptyString, _ => tags_from (InName true "") s'
            | _, String d s'' =>
                if is_char d ">" then Empty name :: tags_from InText s''
                else tags_from (InAttrs closing name) s'
            | _, EmptyString => []
            end
          else tags_from (InName closing (name ++ String c "")) s'
      | InAttrs closing name =>
          if is_char c ">" then end_tag closing name :: tags_from InText s'
          else if is_char c "034" then tags_from (InValue closing name) s'
          else if is_char c "/" then
            match s' with
            | String d s'' =>
                if is_char d ">" then Empty name :: tags_from InText s''
                else tags_from (InAttrs closing name) s'
            | EmptyString => []
            end
          else tags_from (InAttrs closing name) s'
      | InValue closing name =>
          if is_char c "034" then tags_from (InAttrs closing name) s'
          else tags_from (InValue closing name) s'
      end
  end.

Definition tags (s : string) : list tag := tags_from InText s.

(** ** Statements and their effects

    A statement runs in a state [S] and completes normally with a value,
    by a [return;] or by throwing. *)
Inductive completion (A : Type) : Type :=
| Normal (a : A)
| Returned
| Thrown (e : exn).

Arguments Normal {A} a.
Arguments Returned {A}.
Arguments Thrown {A} e.

Definition M (S A : Type) : Type := S -> S * completion A.

Definition ret {S A : Type} (a : A) : M S A := fun w => (w, Normal a).

Definition bind {S A B : Type} (m : M S A) (k : A -> M S B) : M S B :=
  fun w =>
    match m w with
    | (w', Normal a) => k a w'
    | (w', Returned) => (w', Returned)
    | (w', Thrown e) => (w', Thrown e)
    end.

Definition return_ {S A : Type} : M S A := fun w => (w, Returned).

Definition throw {S A : Type} (e : exn) : M S A := fun w => (w, Thrown e).

Definition gets {S A : Type} (f : S -> A) : M S A := fun w => (w, Normal (f w)).

Definition modify {S : Type} (f : S -> S) : M S unit := fun w => (f w, Normal tt).

(** [if (c) { m }] *)
Definition when {S : Type} (c : bool) (m : M S unit) : M S unit :=
  if c then m else ret tt.

(** The state a statement leaves and the way it completes. *)
Definition exec {S A : Type} (m : M S A) (w : S) : S := fst (m w).

Definition completes {S A : Type} (m : M S A) (w : S) : completion A := snd (m w).

Declare Scope js_scope.
Delimit Scope js_scope with js.

Notation "x <- m ;; k" := (bind m (fun x => k))
  (at level 100, m at next level, right associativity) : js_scope.
Notation "m ;; k" := (bind m (fun _ => k))
  (at level 100, right associativity) : js_scope.

(** [x.toString()] and [x.p] on a value that may be [undefined]. *)
Definition toString {S : Type} (x : option string) : M S string :=
  match x with
  | Some s => ret s
  | None => throw (TypeError "Cannot read property 'toString' of undefined")
  end.

Definition defined {S A : Type} (x : option A) : M S A :=
  match x with
  | Some a => ret a
  | None => throw (TypeError "Cannot read property of undefined")
  end.

(** The three stretches of [search_xml] around its two [%s]. *)
Definition search_xml_head : string :=
  lines
    [ "";
      "        <c:calendar-query xmlns:d=" ++ q "DAV:" ++ " xmlns:c=" ++ q "urn:ietf:params:xml:ns:caldav" ++ ">";
      "          <d:prop>";
      "            <d:getetag />";
      "            <c:calendar-data />";
      "          </d:prop>";
      "          <c:filter>";
      "            <c:comp-filter name=" ++ q "VCALENDAR" ++ ">";
      "              <c:comp-filter name=" ++ q "VEVENT" ++ ">";
      "                <c:prop-filter name=" ++ dq ].

Definition search_xml_middle : string :=
  lines [ dq ++ ">"; "                  <c:text-match>" ].

Definition search_xml_tail : string :=
  lines
    [ "</c:text-match>";
      "                </c:prop-filter>";
      "              </c:comp-filter>";
      "            </c:comp-filter>";
      "          </c:filter>";
      "        </c:calendar-query>";
      "        " ].

(** ** The type guards of the class *)

(** ToBoolean on the values of a decoded tree: [undefined] and the empty
    string are falsy, every array and every object is truthy. *)
#[export] Instance json_ToBoolean : ToBoolean json :=
  fun x =>
    match x with
    | JUndefined => false
    | JString s => truthy s
    | JArray _ => true
    | JObject _ => true
    end.

(** [x.key] as the runtime evaluates it: reading a member of [undefined]
    throws. *)
Definition property {S : Type} (key : string) (x : json) : M S json :=
  match x with
  | JUndefined => throw (TypeError "Cannot read property of undefined")
  | _ => ret (member_of key x)
  end.

(** [a && b]: [a] when it is falsy, otherwise what [b] evaluates to. *)
Definition and_then {S : Type} (a : json) (b : M S json) : M S json :=
  if truthy a then b else ret a.

(** [isIResponse(x)]: [return x && x.href;] *)
Definition isIResponse {S : Type} (x : json) : M S json :=
  and_then x (property "href" x).

(** [isIPropStat(x)]: [return x && x.status;] *)
Definition isIPropStat {S : Type} (x : json) : M S json :=
  and_then x (property "status" x).

(** A string in which the character [c] does not occur. *)
Fixpoint lacks (c : ascii) (s : string) : bool :=
  match s with
  | EmptyString => true
  | String d s' => negb (is_char d c) && lacks c s'
  end.

(** ** Collaborators

    What the class consumes and does not define. *)

(** What a call of the XML handler comes to: the generic tree of the
    document, or the exception the handler throws on a text it cannot
    read. *)
Inductive decoding : Type :=
| Decoded (tree : object)
| Malformed (e : exn).

Class Collaborators : Type := {
  (** The WHATWG [URL] class: [url.toString()] and [new URL(input, base)],
      which throws a [TypeError] on an input it cannot resolve ([None]). *)
  URL : Type;
  url_toString : URL -> string;
  url_resolve : string -> URL -> option URL;
  (** The error values the transport hands to a callback. *)
  TransportError : Type;
  (** [new soap.XMLHandler().xmlToJson(null, xml, null)]: the generic tree
      of an XML document, or the exception thrown. *)
  xmlToJson : string -> decoding
}.

Section Client.

Context {collaborators : Collaborators}.

(** *** The client and the world around it *)

Record CalDav : Type := {
  url : URL;
  user : string;
  password : string;
  proxy : option string
}.

Definition constructor (url : URL) (user password : string) (proxy : option string) : CalDav :=
  {| url := url; user := user; password := password; proxy := proxy |}.

(** What a promise is rejected with: the transport's error, or a string. *)
Inductive reason : Type :=
| RError (e : TransportError)
| RString (s : string).

Inductive PromiseState : Type :=
| Pending
| Fulfilled (value : json)
| Rejected (r : reason).

(** One call [request(uri, options, callback).auth(user, password)]. *)
Record Request : Type := {
  uri : string;
  options : CoreOptions.t;
  auth : string * string
}.

Inductive log_level : Type := LInfo | LError.

Inductive log_arg : Type :=
| Inspect (o : CoreOptions.t)
| Text (s : string)
| Cause (e : TransportError).

Record LogLine : Type := {
  level : log_level;
  format : string;
  arg : log_arg
}.

(** The client object, the promise the running call returned, the requests
    handed to the transport, the lines given to the logger and the exceptions
    that escaped a callback. *)
Record World : Type := {
  instance : CalDav;
  promise : PromiseState;
  outbox : list Request;
  console : list LogLine;
  uncaught : list exn
}.

(** What the transport yields for one request, and the arguments
    [(error, response, body)] its callback is invoked with: an error alone,
    or [null] with the response and its body. *)
Inductive TransportOutcome : Type :=
| Failure (e : TransportError)
| Reply (response : RequestResponse.t) (body : string).

Record CallbackArgs : Type := {
  error : option TransportError;
  response : option RequestResponse.t;
  body : option string
}.

Definition deliver (o : TransportOutcome) : CallbackArgs :=
  match o with
  | Failure e => {| error := Some e; response := None; body := None |}
  | Reply r b => {| error := None; response := Some r; body := Some b |}
  end.

Definition JS (A : Type) : Type := M World A.

(** *** Primitive effects *)

Definition this_url : JS URL := gets (fun w => url (instance w)).
Definition this_user : JS string := gets (fun w => user (instance w)).
Definition this_password : JS string := gets (fun w => password (instance w)).
Definition this_proxy : JS (option string) := gets (fun w => proxy (instance w)).

Definition set_promise (p : PromiseState) (w : World) : World :=
  {| instance := instance w; promise := p; outbox := outbox w;
     console := console w; uncaught := uncaught w |}.

(** A promise settles once: [resolve] and [reject] on a settled promise do
    nothing. *)
Definition settle (p : PromiseState) (w : World) : World :=
  match promise w with
  | Pending => set_promise p w
  | _ => w
  end.

Definition new_Promise : JS unit := modify (set_promise Pending).
Definition resolve (v : json) : JS unit := modify (settle (Fulfilled v)).
Definition reject (r : reason) : JS unit := modify (settle (Rejected r)).

Definition log (l : log_level) (fmt : string) (a : log_arg) : JS unit :=
  modify (fun w =>
    {| instance := instance w; promise := promise w; outbox := outbox w;
       console := (console w ++ [{| level := l; format := fmt; arg := a |}])%list;
       uncaught := uncaught w |}).

(** [request(target, o, callback).auth(usr, pwd)]: the request is handed to
    the transport. *)
Definition request (target : string) (o : CoreOptions.t) (usr pwd : string) : JS unit :=
  modify (fun w =>
    {| instance := instance w; promise := promise w;
       outbox := (outbox w ++ [{| uri := target; options := o; auth := (usr, pwd) |}])%list;
       console := console w; uncaught := uncaught w |}).

(** The transport invoking a callback: the callback runs in an activation of
    its own, so its [return;] ends only the callback and an exception it
    throws reaches nobody. *)
Definition invoked (callback : JS unit) : JS unit :=
  fun w =>
    match callback w with
    | (w', Thrown e) =>
        ({| instance := instance w'; promise := promise w'; outbox := outbox w';
            console := console w'; uncaught := (uncaught w' ++ [e])%list |}, Normal tt)
    | (w', _) => (w', Normal tt)
    end.

(** [new URL(input, base)] *)
Definition new_URL (input : string) (base : URL) : JS URL :=
  match url_resolve input base with
  | Some u => ret u
  | None => throw (TypeError "Invalid URL")
  end.

Local Open Scope js_scope.

(** *** The callbacks *)

(** [handler.xmlToJson(null, xml, null)], called with no [try] around it:
    an exception of the handler is the callback's. *)
Definition handler_xmlToJson (xml : string) : JS object :=
  match xmlToJson xml with
  | Decoded tree => ret tree
  | Malformed e => throw e
  end.

(** The opening of every callback: [if (error) { Logger.Logger.error(...);
    reject(error); }], with no [return]. *)
Definition on_error (name : string) (args : CallbackArgs) : JS unit :=
  match error args with
  | Some e => log LError (name ++ ": error = [%s]") (Cause e) ;; reject (RError e)
  | None => ret tt
  end.

(** The callback of the three discovery operations, of [search] and of
    [delete]; the five differ in the operation name they log only. *)
Definition multistatus_callback (name : string) (args : CallbackArgs) : JS unit :=
  on_error name args ;;
  text <- toString (body args) ;;
  log LInfo (name ++ ": response = [%s]") (Text text) ;;
  json <- handler_xmlToJson text ;;
  resolve (member "multistatus" json).

(** The callback of [put]. *)
Definition put_callback (args : CallbackArgs) : JS unit :=
  on_error "put" args ;;
  text <- toString (body args) ;;
  log LInfo "put: response = [%s]" (Text text) ;;
  response <- defined (response args) ;;
  let statusCode := RequestResponse.statusCode response in
  when (truthy statusCode)
    (when (number_ge statusCode 200 && number_lt statusCode 300)
       (let tag := RequestResponse.etag response in
        when (truthy tag)
          (match tag with
           | Some (HString tag) => resolve (JString tag)   (* typeof tag === "string" *)
           | _ => ret tt
           end) ;;
        return_)) ;;
  reject (RString "error").

(** *** The static discovery operations *)

Definition getCurrentUserPrincipal (url : URL) (user password : string)
    (proxy : option string) (o : TransportOutcome) : JS unit :=
  let xml := getCurrentUserPrincipal_xml in
  let options :=
    {| CoreOptions.method := "PROPFIND";
       CoreOptions.headers := Some [("Depth", "0"); ("Prefer", "return-minimal")];
       CoreOptions.proxy := proxy;
       CoreOptions.body := Some xml |} in
  log LInfo "getCurrentUserPrincipal: request = [%s]" (Inspect options) ;;
  new_Promise ;;
  request (url_toString url) options user password ;;
  invoked (multistatus_callback "getCurrentUserPrincipal" (deliver o)).

Definition getCalendarHomeSet (url : URL) (user password : string)
    (proxy : option string) (o : TransportOutcome) : JS unit :=
  let xml := getCalendarHomeSet_xml in
  let options :=
    {| CoreOptions.method := "PROPFIND";
       CoreOptions.headers := Some [("Depth", "0"); ("Prefer", "return-minimal")];
       CoreOptions.proxy := proxy;
       CoreOptions.body := Some xml |} in
  log LInfo "getCalendarHomeSet: request = [%s]" (Inspect options) ;;
  new_Promise ;;
  request (url_toString url) options user password ;;
  invoked (multistatus_callback "getCalendarHomeSet" (deliver o)).

Definition getCalendarComponentSet (url : URL) (user password : string)
    (proxy : option string) (o : TransportOutcome) : JS unit :=
  let xml := getCalendarComponentSet_xml in
  let options :=
    {| CoreOptions.method := "PROPFIND";
       CoreOptions.headers := Some [("Depth", "1"); ("Prefer", "return-minimal")];
       CoreOptions.proxy := proxy;
       CoreOptions.body := Some xml |} in
  log LInfo "getCalendarComponentSet: request = [%s]" (Inspect options) ;;
  new_Promise ;;
  request (url_toString url) options user password ;;
  invoked (multistatus_callback "getCalendarComponentSet" (deliver o)).

(** *** The instance operations *)

Definition search (field id : string) (o : TransportOutcome) : JS unit :=
  let xml := search_xml in
  proxy <- this_proxy ;;
  let options :=
    {| CoreOptions.method := "REPORT";
       CoreOptions.headers := Some [("Depth", "1"); ("Prefer", "return-minimal")];
       CoreOptions.proxy := proxy;
       CoreOptions.body := Some (util_format xml [field; id]) |} in
  log LInfo "search: request = [%s]" (Inspect options) ;;
  new_Promise ;;
  url <- this_url ;;
  user <- this_user ;;
  password <- this_password ;;
  request (url_toString url) options user password ;;
  invoked (multistatus_callback "search" (deliver o)).

Definition put (ics event : string) (etag : option string) (o : TransportOutcome) : JS unit :=
  proxy <- this_proxy ;;
  let options :=
    {| CoreOptions.method := "PUT";
       CoreOptions.headers := None;
       CoreOptions.proxy := proxy;
       CoreOptions.body := Some event |} in
  let options :=
    match etag with
    | Some etag =>
        if truthy etag then CoreOptions.set_headers [("If-Match", etag)] options
        else options
    | None => options
    end in
  base <- this_url ;;
  putUrl <- new_URL ics base ;;
  log LInfo "put: request = [%s]" (Inspect options) ;;
  new_Promise ;;
  user <- this_user ;;
  password <- this_password ;;
  request (url_toString putUrl) options user password ;;
  invoked (put_callback (deliver o)).

Definition delete (ics etag : string) (o : TransportOutcome) : JS unit :=
  proxy <- this_proxy ;;
  let options :=
    {| CoreOptions.method := "DELETE";
       CoreOptions.headers := Some [("If-Match", etag)];
       CoreOptions.proxy := proxy;
       CoreOptions.body := None |} in
  base <- this_url ;;
  deleteUrl <- new_URL ics base ;;
  log LInfo "delete: request = [%s]" (Inspect options) ;;
  new_Promise ;;
  user <- this_user ;;
  password <- this_password ;;
  request (url_toString deleteUrl) options user password ;;
  invoked (multistatus_callback "delete" (deliver o)).

(** *** Calls, by kind *)

(** The operations that answer with a multistatus read from the body: the
    three discovery operations and [search]. *)
Inductive Query : Type :=
| GetCurrentUserPrincipal (url : URL) (user password : string) (proxy : option string)
| GetCalendarHomeSet (url : URL) (user password : string) (proxy : option string)
| GetCalendarComponentSet (url : URL) (user password : string) (proxy : option string)
| Search (field id : string).

Definition query (c : Query) : TransportOutcome -> JS unit :=
  match c with
  | GetCurrentUserPrincipal url user password proxy =>
      getCurrentUserPrincipal url user password proxy
  | GetCalendarHomeSet url user password proxy =>
      getCalendarHomeSet url user password proxy
  | GetCalendarComponentSet url user password proxy =>
      getCalendarComponentSet url user password proxy
  | Search field id => search field id
  end.

(** The operations of a client instance. *)
Inductive Call : Type :=
| CallSearch (field id : string)
| CallPut (ics event : string) (etag : option string)
| CallDelete (ics etag : string).

Definition call (c : Call) : TransportOutcome -> JS unit :=
  match c with
  | CallSearch field id => search field id
  | CallPut ics event etag => put ics event etag
  | CallDelete ics etag => delete ics etag
  end.

(** A client's life after construction: calls, each with the outcome the
    transport had for it, one after the other. *)
Fixpoint session (cs : list (Call * TransportOutcome)) (w : World) : World :=
  match cs with
  | [] => w
  | (c, o) :: cs' => session cs' (exec (call c o) w)
  end.

(** The test [put] applies to a response: a status code in [[200, 300)]. *)
Definition success (r : RequestResponse.t) : Prop :=
  exists code, RequestResponse.statusCode r = Some code /\ 200 <= code < 300.

(** The requests a statement hands to the transport, given the world before
    and after it. *)
Definition sent (before after : World) (rs : list Request) : Prop :=
  outbox after = (outbox before ++ rs)%list.

(** Whether the path of a call resolves against the base URL; [search]
    resolves nothing. *)
Definition call_resolves (base : URL) (c : Call) : bool :=
  match c with
  | CallSearch _ _ => true
  | CallPut ics _ _ | CallDelete ics _ =>
      match url_resolve ics base with
      | Some _ => true
      | None => false
      end
  end.

(** The name an operation logs under. *)
Definition query_name (c : Query) : string :=
  match c with
  | GetCurrentUserPrincipal _ _ _ _ => "getCurrentUserPrincipal"
  | GetCalendarHomeSet _ _ _ _ => "getCalendarHomeSet"
  | GetCalendarComponentSet _ _ _ _ => "getCalendarComponentSet"
  | Search _ _ => "search"
  end.

(** The options a [Query] hands to the transport. *)
Definition query_options (c : Query) (w : World) : CoreOptions.t :=
  let propfind depth proxy xml :=
    {| CoreOptions.method := "PROPFIND";
       CoreOptions.headers := Some [("Depth", depth); ("Prefer", "return-minimal")];
       CoreOptions.proxy := proxy;
       CoreOptions.body := Some xml |} in
  match c with
  | GetCurrentUserPrincipal _ _ _ proxy => propfind "0" proxy getCurrentUserPrincipal_xml
  | GetCalendarHomeSet _ _ _ proxy => propfind "0" proxy getCalendarHomeSet_xml
  | GetCalendarComponentSet _ _ _ proxy => propfind "1" proxy getCalendarComponentSet_xml
  | Search field id =>
      {| CoreOptions.method := "REPORT";
         CoreOptions.headers := Some [("Depth", "1"); ("Prefer", "return-minimal")];
         CoreOptions.proxy := proxy (instance w);
         CoreOptions.body := Some (search_body field id) |}
  end.

(** The exception a callback raises when it reads [body.toString()] and the
    transport gave it no body. *)
Definition no_body : exn := TypeError "Cannot read property 'toString' of undefined".

(** [preserves f m]: running [m] does not change the part [f] of the world,
    however [m] completes. *)
Definition preserves {A B : Type} (f : World -> B) (m : JS A) : Prop :=
  forall w, f (exec m w) = f w.

End Client.

(** ** A concrete setting

    Collaborators to run the operations against: URLs are their text,
    a relative path is resolved by appending it to the base, errors are their
    message, and the XML handler knows two documents, one with a single
    [response] element and one with two; it reads the empty text and any
    other text that opens with a tag as a tree without [multistatus], and
    throws on a text that opens otherwise. *)

Definition one_response_xml : string :=
  "<multistatus><response><href>/principals/alice/</href></response></multistatus>".

Definition two_responses_xml : string :=
  "<multistatus><response><href>/cal/a/</href></response><response><href>/cal/b/</href></response></multistatus>".

Definition one_response_tree : object :=
  [("multistatus", JObject [("response", JObject [("href", JString "/principals/alice/")])])].

Definition two_responses_tree : object :=
  [("multistatus",
    JObject [("response", JArray [JObject [("href", JString "/cal/a/")];
                                  JObject [("href", JString "/cal/b/")]])])].

Definition sample_xmlToJson (xml : string) : decoding :=
  if String.eqb xml one_response_xml then Decoded one_response_tree
  else if String.eqb xml two_responses_xml then Decoded two_responses_tree
  else
    match xml with
    | EmptyString => Decoded []
    | String c _ =>
        if is_char c "<" then Decoded []
        else Malformed (Error "Text data outside of root node.")
    end.

Definition sample : Collaborators :=
  {| URL := string;
     url_toString := fun u => u;
     url_resolve := fun input base =>
       if String.eqb input "http://" then None else Some (base ++ input);
     TransportError := string;
     xmlToJson := sample_xmlToJson |}.

Definition sample_client : CalDav (collaborators := sample) :=
  constructor (collaborators := sample) "https://dav.example/alice/" "alice" "secret" None.

(** The world before a call: no request sent, nothing logged. *)
Definition sample_world : World (collaborators := sample) :=
  {| instance := sample_client; promise := Pending; outbox := [];
     console := []; uncaught := [] |}.

Definition sample_reply (status : Z) (headers : list (string * header_value)) (body : string)
  : TransportOutcome (collaborators := sample) :=
  Reply (RequestResponse.mk (Some status) headers) body.

(** * Properties *)

(** ** Strings *)

Lemma append_assoc (a b c : string) : (a ++ b) ++ c = a ++ (b ++ c).
Proof.
  induction a as [|x a IH]; simpl.
  - reflexivity.
  - now rewrite IH.
Qed.

(** A stretch of the format string without percent signs is copied. *)
Lemma format_scan_plain (pre rest : string) (args : list string) :
  plain pre = true ->
  format_scan (pre ++ rest) args = pre ++ format_scan rest args.
Proof.
  induction pre as [|c pre IH]; simpl; intros Hplain.
  - reflexivity.
  - apply andb_true_iff in Hplain as [Hc Hpre].
    apply negb_true_iff in Hc. rewrite Hc.
    now rewrite IH.
Qed.

Lemma format_scan_directive_s (rest a : string) (args : list string) :
  format_scan ("%s" ++ rest) (a :: args) = a ++ format_scan rest args.
Proof. reflexivity. Qed.

Lemma format_scan_end (post : string) :
  plain post = true -> format_scan post [] = post.
Proof.
  induction post as [|c post IH]; simpl; intros Hplain.
  - reflexivity.
  - apply andb_true_iff in Hplain as [Hc Hpost].
    apply negb_true_iff in Hc. rewrite Hc.
    now rewrite IH.
Qed.

(** A format string with two [%s] directives and no other percent sign
    places its two arguments, unchanged, where the directives stand. *)
Lemma util_format_two (pre mid post a b : string) :
  plain pre = true -> plain mid = true -> plain post = true ->
  util_format (pre ++ "%s" ++ mid ++ "%s" ++ post) [a; b] = pre ++ a ++ mid ++ b ++ post.
Proof.
  intros Hpre Hmid Hpost. unfold util_format.
  rewrite (format_scan_plain pre _ _ Hpre), format_scan_directive_s.
  rewrite (format_scan_plain mid _ _ Hmid), format_scan_directive_s.
  now rewrite (format_scan_end post Hpost).
Qed.

(** The only directives of the search template are its two [%s]. *)
Lemma search_xml_directives : directives search_xml = ["s"%char; "s"%char].
Proof. reflexivity. Qed.

Section Properties.

Context {collaborators : Collaborators}.

(** ** Running the operations *)

Ltac js_run :=
  unfold exec, completes, sent, query, call,
    getCurrentUserPrincipal, getCalendarHomeSet, getCalendarComponentSet,
    search, put, delete, multistatus_callback, put_callback, on_error,
    handler_xmlToJson, invoked, new_URL, new_Promise, resolve, reject, request, log,
    this_url, this_user, this_password, this_proxy,
    toString, defined, when, bind, ret, return_, throw, gets, modify,
    settle, set_promise, deliver in *;
  cbn [fst snd instance promise outbox console uncaught
       error response body url user password proxy] in *.

(** The status test of [put], as the booleans its two [if]s compute. *)
Lemma success_test (r : RequestResponse.t) :
  success r ->
  truthy (RequestResponse.statusCode r) = true /\
  number_ge (RequestResponse.statusCode r) 200
    && number_lt (RequestResponse.statusCode r) 300 = true.
Proof.
  intros (code & Hcode & Hrange). rewrite Hcode. cbn.
  unfold truthy, number_ToBoolean.
  destruct (Z.eqb_spec code 0); [lia|].
  split; [reflexivity|].
  apply andb_true_iff; split; [apply Z.leb_le | apply Z.ltb_lt]; lia.
Qed.

Lemma failure_test (r : RequestResponse.t) :
  ~ success r ->
  truthy (RequestResponse.statusCode r)
    && (number_ge (RequestResponse.statusCode r) 200
        && number_lt (RequestResponse.statusCode r) 300) = false.
Proof.
  intros Hfail. destruct (RequestResponse.statusCode r) as [code|] eqn:Hcode; cbn.
  - destruct (Z.leb_spec 200 code); destruct (Z.ltb_spec code 300);
      rewrite ?andb_false_r; try reflexivity.
    exfalso. apply Hfail. exists code. split; [assumption | lia].
  - reflexivity.
Qed.

(** ** What a statement leaves untouched *)

Lemma preserves_ret {A B : Type} (f : World -> B) (a : A) : preserves f (ret a).
Proof. intros w. reflexivity. Qed.

Lemma preserves_return {A B : Type} (f : World -> B) : preserves f (@return_ World A).
Proof. intros w. reflexivity. Qed.

Lemma preserves_throw {A B : Type} (f : World -> B) (e : exn) :
  preserves f (@throw World A e).
Proof. intros w. reflexivity. Qed.

Lemma preserves_gets {A B : Type} (f : World -> B) (g : World -> A) :
  preserves f (gets g).
Proof. intros w. reflexivity. Qed.

Lemma preserves_bind {A B C : Type} (f : World -> C) (m : JS A) (k : A -> JS B) :
  preserves f m -> (forall a, preserves f (k a)) -> preserves f (bind m k).
Proof.
  intros Hm Hk w. unfold exec, bind.
  specialize (Hm w). unfold exec in Hm.
  destruct (m w) as [w' [a| |e]]; cbn in *; try assumption.
  rewrite <- Hm. apply Hk.
Qed.

Lemma preserves_when {B : Type} (f : World -> B) (c : bool) (m : JS unit) :
  preserves f m -> preserves f (when c m).
Proof. intros Hm. destruct c; [exact Hm | apply preserves_ret]. Qed.

Lemma preserves_toString {B : Type} (f : World -> B) (x : option string) :
  preserves f (toString x).
Proof. destruct x; intros w; reflexivity. Qed.

Lemma preserves_defined {A B : Type} (f : World -> B) (x : option A) :
  preserves f (defined x).
Proof. destruct x; intros w; reflexivity. Qed.

Lemma preserves_new_URL {B : Type} (f : World -> B) (input : string) (base : URL) :
  preserves f (new_URL input base).
Proof. unfold new_URL. destruct (url_resolve input base); intros w; reflexivity. Qed.

Lemma preserves_handler_xmlToJson {B : Type} (f : World -> B) (xml : string) :
  preserves f (handler_xmlToJson xml).
Proof. unfold handler_xmlToJson. destruct (xmlToJson xml); intros w; reflexivity. Qed.

(** The client object is out of reach of every primitive effect. *)
Lemma instance_log l fmt a : preserves instance (log l fmt a).
Proof. intros w. reflexivity. Qed.

Lemma instance_new_Promise : preserves instance new_Promise.
Proof. intros w. reflexivity. Qed.

Lemma instance_resolve v : preserves instance (resolve v).
Proof. intros w. unfold exec, resolve, modify, settle. cbn. now destruct (promise w). Qed.

Lemma instance_reject r : preserves instance (reject r).
Proof. intros w. unfold exec, reject, modify, settle. cbn. now destruct (promise w). Qed.

Lemma instance_request target o usr pwd : preserves instance (request target o usr pwd).
Proof. intros w. reflexivity. Qed.

Lemma instance_invoked (m : JS unit) : preserves instance m -> preserves instance (invoked m).
Proof.
  intros Hm w. specialize (Hm w). unfold exec, invoked in *.
  destruct (m w) as [w' [a| |e]]; cbn in *; assumption.
Qed.

(** The requests handed to the transport are out of reach of a callback. *)
Lemma outbox_log l fmt a : preserves outbox (log l fmt a).
Proof. intros w. reflexivity. Qed.

Lemma outbox_resolve v : preserves outbox (resolve v).
Proof. intros w. unfold exec, resolve, modify, settle. cbn. now destruct (promise w). Qed.

Lemma outbox_reject r : preserves outbox (reject r).
Proof. intros w. unfold exec, reject, modify, settle. cbn. now destruct (promise w). Qed.

Lemma outbox_invoked (m : JS unit) : preserves outbox m -> preserves outbox (invoked m).
Proof.
  intros Hm w. specialize (Hm w). unfold exec, invoked in *.
  destruct (m w) as [w' [a| |e]]; cbn in *; assumption.
Qed.

Create HintDb frame.

#[local] Hint Resolve preserves_ret preserves_return preserves_throw preserves_gets
  preserves_when preserves_toString preserves_defined preserves_new_URL
  preserves_handler_xmlToJson
  instance_log instance_new_Promise instance_resolve instance_reject
  instance_request instance_invoked
  outbox_log outbox_resolve outbox_reject outbox_invoked : frame.

Ltac frame :=
  repeat first
    [ apply preserves_bind; [| intros ?]
    | apply preserves_when
    | match goal with
      | |- preserves _ (match ?x with _ => _ end) => destruct x
      | |- preserves _ (let _ := _ in _) => cbv zeta
      end
    | solve [auto with frame] ].

Lemma instance_on_error name args : preserves instance (on_error name args).
Proof. unfold on_error. frame. Qed.

Lemma outbox_on_error name args : preserves outbox (on_error name args).
Proof. unfold on_error. frame. Qed.

#[local] Hint Resolve instance_on_error outbox_on_error : frame.

Lemma instance_multistatus_callback name args :
  preserves instance (multistatus_callback name args).
Proof. unfold multistatus_callback. frame. Qed.

Lemma outbox_multistatus_callback name args :
  preserves outbox (multistatus_callback name args).
Proof. unfold multistatus_callback. frame. Qed.

Lemma instance_put_callback args : preserves instance (put_callback args).
Proof. unfold put_callback. frame. Qed.

Lemma outbox_put_callback args : preserves outbox (put_callback args).
Proof. unfold put_callback. frame. Qed.

#[local] Hint Resolve instance_multistatus_callback outbox_multistatus_callback
  instance_put_callback outbox_put_callback : frame.

(** ** The request each operation sends *)

Lemma discovery_sends (method depth xml name : string) (url : URL)
    (user password : string) (proxy : option string) (o : TransportOutcome) (w : World) :
  let options :=
    {| CoreOptions.method := method;
       CoreOptions.headers := Some [("Depth", depth); ("Prefer", "return-minimal")];
       CoreOptions.proxy := proxy;
       CoreOptions.body := Some xml |} in
  sent w
    (exec (log LInfo (name ++ ": request = [%s]") (Inspect options) ;;
           new_Promise ;;
           request (url_toString url) options user password ;;
           invoked (multistatus_callback name (deliver o)))%js w)
    [{| uri := url_toString url; options := options; auth := (user, password) |}].
Proof.
  intros options. destruct o as [e|r b]; [reflexivity|].
  js_run. destruct (xmlToJson b); reflexivity.
Qed.

Lemma search_sends (field id : string) (o : TransportOutcome) (w : World) :
  sent w (exec (search field id o) w)
    [{| uri := url_toString (url (instance w));
        options :=
          {| CoreOptions.method := "REPORT";
             CoreOptions.headers := Some [("Depth", "1"); ("Prefer", "return-minimal")];
             CoreOptions.proxy := proxy (instance w);
             CoreOptions.body := Some (search_body field id) |};
        auth := (user (instance w), password (instance w)) |}].
Proof.
  destruct o as [e|r b]; [reflexivity|].
  js_run. destruct (xmlToJson b); reflexivity.
Qed.

Ltac js_sync :=
  unfold exec, sent, put, delete, new_URL, new_Promise, request, log,
    this_url, this_user, this_password, this_proxy, bind, ret, throw, gets,
    modify, set_promise;
  cbn [fst snd instance promise outbox console uncaught].

Lemma put_sends (ics event : string) (etag : option string) (o : TransportOutcome)
    (w : World) (u : URL) :
  url_resolve ics (url (instance w)) = Some u ->
  sent w (exec (put ics event etag o) w)
    [{| uri := url_toString u;
        options :=
          {| CoreOptions.method := "PUT";
             CoreOptions.headers :=
               match etag with
               | Some e => if truthy e then Some [("If-Match", e)] else None
               | None => None
               end;
             CoreOptions.proxy := proxy (instance w);
             CoreOptions.body := Some event |};
        auth := (user (instance w), password (instance w)) |}].
Proof.
  intros Hu. js_sync. rewrite Hu.
  match goal with
  | |- context [invoked ?cb ?w1] =>
      pose proof (outbox_invoked cb (outbox_put_callback _) w1) as Hcb
  end.
  unfold exec in Hcb.
  destruct (invoked _ _) as [w' c]. cbn in *. rewrite Hcb.
  destruct etag as [e|]; [destruct (truthy e)|]; reflexivity.
Qed.

Lemma delete_sends (ics etag : string) (o : TransportOutcome) (w : World) (u : URL) :
  url_resolve ics (url (instance w)) = Some u ->
  sent w (exec (delete ics etag o) w)
    [{| uri := url_toString u;
        options :=
          {| CoreOptions.method := "DELETE";
             CoreOptions.headers := Some [("If-Match", etag)];
             CoreOptions.proxy := proxy (instance w);
             CoreOptions.body := None |};
        auth := (user (instance w), password (instance w)) |}].
Proof.
  intros Hu. js_sync. rewrite Hu.
  destruct o as [err|r b]; [reflexivity|].
  js_run. destruct (xmlToJson b); reflexivity.
Qed.

(** ** Event search: the request body *)

(** C5.  The body [search(field, id)] sends is the query template with
    [field] as the [name] of the [prop-filter] and [id] as the content of
    its [text-match], both copied as they are, inside
    [comp-filter name="VEVENT"] inside [comp-filter name="VCALENDAR"]. *)
Theorem search_body_embeds_field_and_id
    (field id : string) (o : TransportOutcome) (w : World) :
  let filled :=
    lines
      [ "";
        "        <c:calendar-query xmlns:d=" ++ q "DAV:" ++ " xmlns:c=" ++ q "urn:ietf:params:xml:ns:caldav" ++ ">";
        "          <d:prop>";
        "            <d:getetag />";
        "            <c:calendar-data />";
        "          </d:prop>";
        "          <c:filter>";
        "            <c:comp-filter name=" ++ q "VCALENDAR" ++ ">";
        "              <c:comp-filter name=" ++ q "VEVENT" ++ ">";
        "                <c:prop-filter name=" ++ q field ++ ">";
        "                  <c:text-match>" ++ id ++ "</c:text-match>";
        "                </c:prop-filter>";
        "              </c:comp-filter>";
        "            </c:comp-filter>";
        "          </c:filter>";
        "        </c:calendar-query>";
        "        " ] in
  search_body field id = filled /\
  exists req,
    sent w (exec (search field id o) w) [req] /\
    CoreOptions.method (options req) = "REPORT" /\
    CoreOptions.body (options req) = Some filled.
Proof.
  intros filled.
  assert (Hbody : search_body field id = filled).
  { pose (pre := lines
      [ "";
        "        <c:calendar-query xmlns:d=" ++ q "DAV:" ++ " xmlns:c=" ++ q "urn:ietf:params:xml:ns:caldav" ++ ">";
        "          <d:prop>";
        "            <d:getetag />";
        "            <c:calendar-data />";
        "          </d:prop>";
        "          <c:filter>";
        "            <c:comp-filter name=" ++ q "VCALENDAR" ++ ">";
        "              <c:comp-filter name=" ++ q "VEVENT" ++ ">";
        "                <c:prop-filter name=" ++ dq ]).
    pose (mid := lines [ dq ++ ">"; "                  <c:text-match>" ]).
    pose (post := lines
      [ "</c:text-match>";
        "                </c:prop-filter>";
        "              </c:comp-filter>";
        "            </c:comp-filter>";
        "          </c:filter>";
        "        </c:calendar-query>";
        "        " ]).
    unfold search_body.
    change search_xml with (pre ++ "%s" ++ mid ++ "%s" ++ post).
    rewrite util_format_two by reflexivity.
    subst filled pre mid post. unfold lines, q. cbn.
    rewrite !append_assoc. reflexivity. }
  split; [exact Hbody|].
  eexists. split; [apply search_sends|].
  split; [reflexivity | cbn [options CoreOptions.body]; now rewrite Hbody].
Qed.

(** ** How the promise settles *)

(** The promise of a discovery operation or of [search], by the outcome of
    the transport. *)
Lemma query_promise (c : Query) (o : TransportOutcome) (w : World) :
  promise (exec (query c o) w) =
  match o with
  | Failure e => Rejected (RError e)
  | Reply _ b =>
      match xmlToJson b with
      | Decoded tree => Fulfilled (member "multistatus" tree)
      | Malformed _ => Pending
      end
  end.
Proof.
  destruct c; (destruct o as [e|r b]; [reflexivity|]);
    cbn [query]; js_run; destruct (xmlToJson b); reflexivity.
Qed.

Lemma delete_promise (ics etag : string) (o : TransportOutcome) (w : World) (u : URL) :
  url_resolve ics (url (instance w)) = Some u ->
  promise (exec (delete ics etag o) w) =
  match o with
  | Failure e => Rejected (RError e)
  | Reply _ b =>
      match xmlToJson b with
      | Decoded tree => Fulfilled (member "multistatus" tree)
      | Malformed _ => Pending
      end
  end.
Proof.
  intros Hu. js_sync. rewrite Hu.
  destruct o as [e|r b]; [reflexivity|].
  js_run. destruct (xmlToJson b); reflexivity.
Qed.

(** The promise of [put] when the transport has a response. *)
Lemma put_reply_promise (ics event : string) (etag : option string)
    (r : RequestResponse.t) (b : string) (w : World) (u : URL) :
  url_resolve ics (url (instance w)) = Some u ->
  promise (exec (put ics event etag (Reply r b)) w) =
  if truthy (RequestResponse.statusCode r)
     && (number_ge (RequestResponse.statusCode r) 200
         && number_lt (RequestResponse.statusCode r) 300)
  then match RequestResponse.etag r with
       | Some (HString tag) => if truthy tag then Fulfilled (JString tag) else Pending
       | _ => Pending
       end
  else Rejected (RString "error").
Proof.
  intros Hu. js_run. rewrite Hu. cbn.
  destruct (truthy (RequestResponse.statusCode r));
    destruct (number_ge (RequestResponse.statusCode r) 200);
    destruct (number_lt (RequestResponse.statusCode r) 300); cbn;
    try reflexivity.
  destruct (RequestResponse.etag r) as [[tag|items]|]; cbn; try reflexivity.
  unfold truthy at 1, optional_ToBoolean, truthy, header_ToBoolean.
  destruct (string_ToBoolean tag); reflexivity.
Qed.

(** ** Event mutation: PUT *)

(** C4 (amended).  The PUT request carries no headers at all, so no
    [If-Match], when no etag is supplied and when the etag supplied is the
    empty string; with a non-empty etag its [If-Match] header is that etag. *)
Theorem put_if_match_header (ics event : string) (etag : option string)
    (o : TransportOutcome) (w : World) (u : URL) :
  url_resolve ics (url (instance w)) = Some u ->
  exists req,
    sent w (exec (put ics event etag o) w) [req] /\
    CoreOptions.method (options req) = "PUT" /\
    (etag = None -> CoreOptions.headers (options req) = None) /\
    (etag = Some "" -> CoreOptions.headers (options req) = None) /\
    (forall e, etag = Some e -> e <> "" ->
       CoreOptions.header "If-Match" (options req) = Some e).
Proof.
  intros Hu. eexists. split; [apply (put_sends _ _ _ _ _ _ Hu)|].
  cbn [options CoreOptions.method CoreOptions.headers].
  split; [reflexivity|]. repeat split.
  - now intros ->.
  - now intros ->.
  - intros e -> Hne. unfold truthy, string_ToBoolean.
    apply String.eqb_neq in Hne. rewrite Hne. reflexivity.
Qed.

(** C10.  [put] with the empty string as etag is [put] with no etag: the
    test [if (etag)] is one of truthiness, and the request goes out without
    an [If-Match] header. *)
Theorem put_empty_etag_is_unconditional (ics event : string)
    (o : TransportOutcome) (w : World) :
  put ics event (Some "") o w = put ics event None o w /\
  forall u, url_resolve ics (url (instance w)) = Some u ->
    exists req,
      sent w (exec (put ics event (Some "") o) w) [req] /\
      CoreOptions.headers (options req) = None /\
      CoreOptions.header "If-Match" (options req) = None.
Proof.
  split; [reflexivity|].
  intros u Hu. eexists. split; [apply (put_sends _ _ _ _ _ _ Hu)|].
  split; reflexivity.
Qed.

(** C1 (amended).  When the transport has a response for a PUT: with a status
    in [[200, 300)] and an [ETag] header that is a non-empty string, the
    promise is resolved with that string; with any other status, or none, it
    is rejected with the string ["error"], whatever the status was. *)
Theorem put_settles_by_status (ics event : string) (etag : option string)
    (r : RequestResponse.t) (b : string) (w : World) (u : URL) :
  url_resolve ics (url (instance w)) = Some u ->
  let settled := promise (exec (put ics event etag (Reply r b)) w) in
  (success r ->
   forall tag, RequestResponse.etag r = Some (HString tag) -> tag <> "" ->
     settled = Fulfilled (JString tag)) /\
  (~ success r -> settled = Rejected (RString "error")).
Proof.
  intros Hu settled. subst settled. rewrite (put_reply_promise _ _ _ _ _ _ _ Hu).
  split.
  - intros Hok tag Htag Hne.
    destruct (success_test r Hok) as [-> ->]. cbn. rewrite Htag.
    unfold truthy, string_ToBoolean.
    apply String.eqb_neq in Hne. now rewrite Hne.
  - intros Hfail. now rewrite (failure_test r Hfail).
Qed.

(** C2.  When the response to a PUT has a status in [[200, 300)] and its
    [ETag] header is absent or is not a string, the promise stays pending:
    the callback has run and neither resolved nor rejected it. *)
Theorem put_without_etag_never_settles (ics event : string) (etag : option string)
    (r : RequestResponse.t) (b : string) (w : World) (u : URL) :
  url_resolve ics (url (instance w)) = Some u ->
  success r ->
  RequestResponse.etag r = None
    \/ (exists items, RequestResponse.etag r = Some (HArray items)) ->
  promise (exec (put ics event etag (Reply r b)) w) = Pending.
Proof.
  intros Hu Hok Htag. rewrite (put_reply_promise _ _ _ _ _ _ _ Hu).
  destruct (success_test r Hok) as [-> ->]. cbn.
  destruct Htag as [-> | [items ->]]; reflexivity.
Qed.

(** ** Event mutation: DELETE *)

(** C7 (amended).  The DELETE request carries the etag given as its
    [If-Match] header.  The XML handler is applied to the body of whatever
    response the transport has, of any status; when it returns a tree the
    promise is resolved with the [multistatus] member of that tree, be it
    [undefined]. *)
Theorem delete_is_conditional_and_decodes (ics etag : string)
    (o : TransportOutcome) (w : World) (u : URL) :
  url_resolve ics (url (instance w)) = Some u ->
  (exists req,
     sent w (exec (delete ics etag o) w) [req] /\
     CoreOptions.method (options req) = "DELETE" /\
     CoreOptions.header "If-Match" (options req) = Some etag) /\
  (forall r b tree,
     o = Reply r b -> xmlToJson b = Decoded tree ->
     promise (exec (delete ics etag o) w) = Fulfilled (member "multistatus" tree)).
Proof.
  intros Hu. split.
  - eexists. split; [apply (delete_sends _ _ _ _ _ Hu)|].
    split; reflexivity.
  - intros r b tree -> Htree. rewrite (delete_promise _ _ _ _ _ Hu).
    now rewrite Htree.
Qed.

(** ** Discovery and search *)

(** C3 (amended).  A discovery operation or [search] rejects exactly when
    the transport reports a failure, and then with the transport's error;
    for every response whose body the XML handler reads it resolves with the
    [multistatus] member of the decoded tree as the handler returned it. *)
Theorem query_rejects_on_transport_failure_only (c : Query)
    (o : TransportOutcome) (w : World) :
  let settled := promise (exec (query c o) w) in
  (forall reason,
     settled = Rejected reason <-> exists e, o = Failure e /\ reason = RError e) /\
  (forall r b tree,
     o = Reply r b -> xmlToJson b = Decoded tree ->
     settled = Fulfilled (member "multistatus" tree)).
Proof.
  intros settled. subst settled. rewrite query_promise. split.
  - intros reason. destruct o as [e|r b]; split.
    + intros H. injection H as <-. now exists e.
    + intros (e' & He & ->). now injection He as ->.
    + destruct (xmlToJson b); discriminate.
    + intros (e' & He & _). discriminate.
  - intros r b tree -> Htree. now rewrite Htree.
Qed.

(** C6 (amended).  For a response whose body the XML handler reads, the
    multistatus handed to the caller has the [response] member the handler
    produced, and nothing normalizes it: a single response object stays a
    single object and is not a sequence, and a sequence stays that sequence,
    the same responses in the same order. *)
Theorem multistatus_response_is_as_decoded (c : Query)
    (r : RequestResponse.t) (b : string) (w : World) (tree : object) :
  xmlToJson b = Decoded tree ->
  let decoded := member_of "response" (member "multistatus" tree) in
  exists ms,
    promise (exec (query c (Reply r b)) w) = Fulfilled ms /\
    member_of "response" ms = decoded /\
    (forall single, decoded = JObject single ->
       forall items, member_of "response" ms <> JArray items) /\
    (forall items, decoded = JArray items -> member_of "response" ms = JArray items).
Proof.
  intros Htree decoded. exists (member "multistatus" tree).
  rewrite query_promise, Htree. split; [reflexivity|]. split; [reflexivity|].
  fold decoded. split.
  - intros single ->. discriminate.
  - intros items H. exact H.
Qed.

(** C8.  The request of each discovery operation: method PROPFIND, the
    [Depth] of the operation, [Prefer: return-minimal], and a [propfind]
    body whose [prop] element holds the properties asked for; [search] sets
    [Prefer: return-minimal] as well. *)
Theorem discovery_requests (url : URL) (user password : string)
    (proxy : option string) (field id : string) (o : TransportOutcome) (w : World) :
  let propfind depth xml :=
    {| uri := url_toString url;
       options :=
         {| CoreOptions.method := "PROPFIND";
            CoreOptions.headers := Some [("Depth", depth); ("Prefer", "return-minimal")];
            CoreOptions.proxy := proxy;
            CoreOptions.body := Some xml |};
       auth := (user, password) |} in
  (sent w (exec (getCurrentUserPrincipal url user password proxy o) w)
     [propfind "0" getCurrentUserPrincipal_xml] /\
   tags getCurrentUserPrincipal_xml =
     [Open "d:propfind"; Open "d:prop"; Empty "d:current-user-principal";
      Close "d:prop"; Close "d:propfind"]) /\
  (sent w (exec (getCalendarHomeSet url user password proxy o) w)
     [propfind "0" getCalendarHomeSet_xml] /\
   tags getCalendarHomeSet_xml =
     [Open "d:propfind"; Open "d:prop"; Empty "c:calendar-home-set";
      Close "d:prop"; Close "d:propfind"]) /\
  (sent w (exec (getCalendarComponentSet url user password proxy o) w)
     [propfind "1" getCalendarComponentSet_xml] /\
   tags getCalendarComponentSet_xml =
     [Open "d:propfind"; Open "d:prop"; Empty "d:resourcetype";
      Empty "d:displayname"; Empty "cs:getctag";
      Empty "c:supported-calendar-component-set";
      Close "d:prop"; Close "d:propfind"]) /\
  (exists req,
     sent w (exec (search field id o) w) [req] /\
     CoreOptions.header "Prefer" (options req) = Some "return-minimal").
Proof.
  intros propfind. subst propfind.
  repeat split; try apply discovery_sends.
  eexists. split; [apply search_sends | reflexivity].
Qed.

(** ** The client object *)

Lemma call_preserves_instance (c : Call) (o : TransportOutcome) :
  preserves instance (call c o).
Proof.
  destruct c; cbn [call]; unfold search, put, delete,
    this_url, this_user, this_password, this_proxy; frame.
Qed.

Lemma session_preserves_instance (cs : list (Call * TransportOutcome)) (w : World) :
  instance (session cs w) = instance w.
Proof.
  revert w. induction cs as [|[c o] cs IH]; intros w; cbn [session].
  - reflexivity.
  - rewrite IH. apply call_preserves_instance.
Qed.

(** C9.  The client object holds the four values its constructor was given,
    and nothing else; no call of [search], [put] or [delete], whatever the
    transport answers, changes it, and so it is the constructed object still
    after any number of calls. *)
Theorem connection_parameters_are_never_mutated
    (url0 : URL) (user0 password0 : string) (proxy0 : option string)
    (p : PromiseState) (out : list Request) (lines0 : list LogLine) (raised : list exn)
    (cs : list (Call * TransportOutcome)) :
  let w0 :=
    {| instance := constructor url0 user0 password0 proxy0; promise := p;
       outbox := out; console := lines0; uncaught := raised |} in
  instance (session cs w0)
    = {| url := url0; user := user0; password := password0; proxy := proxy0 |} /\
  (forall c o w, instance (exec (call c o) w) = instance w).
Proof.
  intros w0. split.
  - rewrite session_preserves_instance. reflexivity.
  - intros c o w. apply call_preserves_instance.
Qed.

(** ** The type guards *)

(** [x && x.key] never throws, and is truthy exactly on an object whose
    member [key] is truthy; what it then yields is that member. *)
Lemma guard_spec {S : Type} (key : string) (x : json) (w : S) :
  exists v,
    and_then x (property key x) w = (w, Normal v) /\
    (truthy v = true <->
     exists fields h, x = JObject fields /\ lookup key fields = Some h /\ truthy h = true) /\
    (truthy v = true -> v = member_of key x).
Proof.
  unfold and_then, property.
  destruct x as [|s|items|fields]; cbn.
  - exists JUndefined. split; [reflexivity|]. split; [split|]; try discriminate.
    intros (? & ? & ? & _); discriminate.
  - exists (if truthy s then JUndefined else JString s).
    split; [now destruct (truthy s)|].
    split; [split|].
    + destruct (truthy s) eqn:Hs; cbn; [discriminate | now rewrite Hs].
    + intros (? & ? & ? & _); discriminate.
    + destruct (truthy s) eqn:Hs; cbn; [discriminate | now rewrite Hs].
  - exists JUndefined. split; [reflexivity|]. split; [split|]; try discriminate.
    intros (? & ? & ? & _); discriminate.
  - exists (member key fields). split; [reflexivity|]. split; [split|].
    + unfold member. destruct (lookup key fields) as [h|] eqn:Hl; [|discriminate].
      intros Hh. exists fields, h. repeat split; assumption.
    + intros (fields' & h & Hx & Hh & Ht). injection Hx as <-.
      unfold member. now rewrite Hh.
    + reflexivity.
Qed.

(** X1.  [isIResponse(x)] never throws, whatever [x] is, [undefined]
    included; it is truthy exactly when [x] is an object with a truthy
    [href], and what it returns then is that [href], not [true]. *)
Theorem isIResponse_accepts_objects_with_href {S : Type} (x : json) (w : S) :
  exists v,
    isIResponse x w = (w, Normal v) /\
    (truthy v = true <->
     exists fields h, x = JObject fields /\ lookup "href" fields = Some h /\ truthy h = true) /\
    (truthy v = true -> v = member_of "href" x).
Proof. apply guard_spec. Qed.

(** X2.  [isIPropStat(x)] never throws; it is truthy exactly when [x] is an
    object with a truthy [status], and what it returns then is that
    [status]. *)
Theorem isIPropStat_accepts_objects_with_status {S : Type} (x : json) (w : S) :
  exists v,
    isIPropStat x w = (w, Normal v) /\
    (truthy v = true <->
     exists fields h, x = JObject fields /\ lookup "status" fields = Some h /\ truthy h = true) /\
    (truthy v = true -> v = member_of "status" x).
Proof. apply guard_spec. Qed.

(** ** Callbacks that are handed an error *)

(** X3.  A callback that is handed an error rejects the promise with it and,
    having no [return] there, runs on: nothing it does afterwards, whatever
    response and body came with the error, changes the rejection. *)
Theorem callback_error_wins (name : string) (args : CallbackArgs)
    (e : TransportError) (w : World) :
  error args = Some e ->
  promise w = Pending ->
  promise (exec (invoked (multistatus_callback name args)) w) = Rejected (RError e) /\
  promise (exec (invoked (put_callback args)) w) = Rejected (RError e).
Proof.
  intros He Hw. split; js_run; rewrite He; cbn; rewrite Hw; cbn.
  - destruct (body args) as [b|]; [|reflexivity].
    destruct (xmlToJson b); reflexivity.
  - destruct (body args) as [b|]; [|reflexivity]. cbn.
    destruct (response args) as [r|]; [|reflexivity]. cbn.
    destruct (truthy (RequestResponse.statusCode r)); [|reflexivity].
    destruct (number_ge (RequestResponse.statusCode r) 200 &&
              number_lt (RequestResponse.statusCode r) 300); [|reflexivity].
    destruct (truthy (RequestResponse.etag r)); [|reflexivity].
    destruct (RequestResponse.etag r) as [[tag|items]|]; reflexivity.
Qed.

(** ** What reaches the caller, and what escapes the callback *)

Lemma invoked_completes (m : JS unit) (w : World) :
  completes (invoked m) w = Normal tt.
Proof.
  unfold completes, invoked. now destruct (m w) as [w' [a| |e]].
Qed.

Lemma query_completes (c : Query) (o : TransportOutcome) (w : World) :
  completes (query c o) w = Normal tt.
Proof.
  destruct c; (destruct o as [e|r b]; [reflexivity|]);
    cbn [query]; js_run; destruct (xmlToJson b); reflexivity.
Qed.

(** X4.  A discovery operation or [search] always returns its promise to
    the caller; what its callback throws escapes the callback and reaches
    nobody.  When the transport fails, the callback, after rejecting, throws
    on [body.toString()].  When the transport has a response, the callback
    throws exactly when the XML handler does, with the handler's exception,
    and the promise then stays pending; otherwise nothing is thrown. *)
Theorem query_returns_whatever_its_callback_throws (c : Query)
    (o : TransportOutcome) (w : World) :
  completes (query c o) w = Normal tt /\
  uncaught (exec (query c o) w)
    = (uncaught w ++
       match o with
       | Failure _ => [no_body]
       | Reply _ b =>
           match xmlToJson b with
           | Decoded _ => []
           | Malformed e => [e]
           end
       end)%list /\
  (forall r b e,
     o = Reply r b -> xmlToJson b = Malformed e ->
     promise (exec (query c o) w) = Pending).
Proof.
  split; [|split].
  - apply query_completes.
  - destruct c; (destruct o as [e|r b]; [reflexivity|]);
      cbn [query]; js_run; destruct (xmlToJson b); cbn;
      rewrite ?app_nil_r; reflexivity.
  - intros r b e -> He. now rewrite query_promise, He.
Qed.

Lemma put_failure (ics event : string) (etag : option string)
    (e : TransportError) (w : World) (u : URL) :
  url_resolve ics (url (instance w)) = Some u ->
  promise (exec (put ics event etag (Failure e)) w) = Rejected (RError e) /\
  uncaught (exec (put ics event etag (Failure e)) w) = (uncaught w ++ [no_body])%list.
Proof.
  intros Hu. js_sync. rewrite Hu. split; reflexivity.
Qed.

Lemma delete_failure (ics etag : string) (e : TransportError) (w : World) (u : URL) :
  url_resolve ics (url (instance w)) = Some u ->
  promise (exec (delete ics etag (Failure e)) w) = Rejected (RError e) /\
  uncaught (exec (delete ics etag (Failure e)) w) = (uncaught w ++ [no_body])%list.
Proof.
  intros Hu. js_sync. rewrite Hu. split; reflexivity.
Qed.

(** X5.  When the transport fails, [put] and [delete] reject with the
    transport's error, not with the string ["error"], and their callback
    then throws on the missing body. *)
Theorem mutation_rejects_with_transport_error (ics event etag : string)
    (if_match : option string) (e : TransportError) (w : World) (u : URL) :
  url_resolve ics (url (instance w)) = Some u ->
  (promise (exec (put ics event if_match (Failure e)) w) = Rejected (RError e) /\
   uncaught (exec (put ics event if_match (Failure e)) w) = (uncaught w ++ [no_body])%list) /\
  (promise (exec (delete ics etag (Failure e)) w) = Rejected (RError e) /\
   uncaught (exec (delete ics etag (Failure e)) w) = (uncaught w ++ [no_body])%list).
Proof.
  intros Hu. split; [apply (put_failure _ _ _ _ _ _ Hu) | apply (delete_failure _ _ _ _ _ Hu)].
Qed.

Lemma put_completes (ics event : string) (etag : option string)
    (o : TransportOutcome) (w : World) :
  completes (put ics event etag o) w =
  match url_resolve ics (url (instance w)) with
  | Some _ => Normal tt
  | None => Thrown (TypeError "Invalid URL")
  end.
Proof.
  unfold completes. js_sync.
  destruct (url_resolve ics (url (instance w))) as [u|]; [|reflexivity].
  match goal with
  | |- context [invoked ?cb ?w1] => pose proof (invoked_completes cb w1) as Hcb
  end.
  unfold completes in Hcb. destruct (invoked _ _) as [w' c]. exact Hcb.
Qed.

Lemma delete_completes (ics etag : string) (o : TransportOutcome) (w : World) :
  completes (delete ics etag o) w =
  match url_resolve ics (url (instance w)) with
  | Some _ => Normal tt
  | None => Thrown (TypeError "Invalid URL")
  end.
Proof.
  unfold completes. js_sync.
  destruct (url_resolve ics (url (instance w))) as [u|]; [|reflexivity].
  match goal with
  | |- context [invoked ?cb ?w1] => pose proof (invoked_completes cb w1) as Hcb
  end.
  unfold completes in Hcb. destruct (invoked _ _) as [w' c]. exact Hcb.
Qed.

(** X6.  [put] and [delete] return their promise exactly when
    [new URL(ics, this.url)] resolves.  When it does not they throw its
    [TypeError] to the caller before anything else has happened: no request
    is sent, nothing is logged, no promise is made. *)
Theorem mutation_throws_on_invalid_url (ics event etag : string)
    (if_match : option string) (o : TransportOutcome) (w : World) :
  let outcome :=
    match url_resolve ics (url (instance w)) with
    | Some _ => Normal tt
    | None => Thrown (TypeError "Invalid URL")
    end in
  completes (put ics event if_match o) w = outcome /\
  completes (delete ics etag o) w = outcome /\
  (url_resolve ics (url (instance w)) = None ->
   exec (put ics event if_match o) w = w /\ exec (delete ics etag o) w = w).
Proof.
  intros outcome. subst outcome.
  split; [apply put_completes|]. split; [apply delete_completes|].
  intros Hu. js_sync. rewrite Hu. split; reflexivity.
Qed.

(** ** PUT: what a settled promise tells *)

Lemma test_success (r : RequestResponse.t) :
  truthy (RequestResponse.statusCode r)
    && (number_ge (RequestResponse.statusCode r) 200
        && number_lt (RequestResponse.statusCode r) 300) = true ->
  success r.
Proof.
  destruct (RequestResponse.statusCode r) as [code|] eqn:Hcode; cbn; [|discriminate].
  intros H. apply andb_true_iff in H as [_ H]. apply andb_true_iff in H as [Hge Hlt].
  apply Z.leb_le in Hge. apply Z.ltb_lt in Hlt.
  exists code. split; [assumption | lia].
Qed.

Lemma truthy_string_nonempty (s : string) : truthy s = true -> s <> "".
Proof.
  unfold truthy, string_ToBoolean. intros H ->. discriminate.
Qed.

(** X7.  The converse reading of [put]'s promise.  It is fulfilled only for
    a response with a status in [[200, 300)] and a non-empty string [ETag],
    and then with that header; it is rejected with a string only for a
    response whose status is not in [[200, 300)], and the string is
    ["error"]; it is rejected with an error value only when the transport
    failed, and the value is the transport's. *)
Theorem put_settlement_only_if (ics event : string) (etag : option string)
    (o : TransportOutcome) (w : World) (u : URL) :
  url_resolve ics (url (instance w)) = Some u ->
  let settled := promise (exec (put ics event etag o) w) in
  (forall v, settled = Fulfilled v ->
     exists r b tag,
       o = Reply r b /\ success r /\
       RequestResponse.etag r = Some (HString tag) /\ tag <> "" /\ v = JString tag) /\
  (forall s, settled = Rejected (RString s) ->
     s = "error" /\ exists r b, o = Reply r b /\ ~ success r) /\
  (forall e, settled = Rejected (RError e) -> o = Failure e).
Proof.
  intros Hu settled. subst settled. destruct o as [e|r b].
  - destruct (put_failure ics event etag e w u Hu) as [-> _].
    repeat split; try discriminate.
    intros e' H. now injection H as ->.
  - rewrite (put_reply_promise _ _ _ _ _ _ _ Hu).
    destruct (truthy (RequestResponse.statusCode r)
              && (number_ge (RequestResponse.statusCode r) 200
                  && number_lt (RequestResponse.statusCode r) 300)) eqn:Htest.
    + apply test_success in Htest.
      destruct (RequestResponse.etag r) as [[tag|items]|] eqn:Htag;
        try (repeat split; discriminate).
      destruct (truthy tag) eqn:Hne; try (repeat split; discriminate).
      split; [|split; discriminate].
      intros v H. injection H as <-.
      exists r, b, tag. repeat split; try assumption.
      now apply truthy_string_nonempty.
    + split; [discriminate|]. split; [|discriminate].
      intros s H. injection H as <-. split; [reflexivity|].
      exists r, b. split; [reflexivity|].
      intros Hok. destruct (success_test r Hok) as [H1 H2].
      rewrite H1, H2 in Htest. discriminate.
Qed.

(** ** Requests over a client's life *)

Lemma call_sends (c : Call) (o : TransportOutcome) (w : World) :
  exists rs,
    sent w (exec (call c o) w) rs /\
    length rs = (if call_resolves (url (instance w)) c then 1 else 0)%nat /\
    Forall (fun req =>
              auth req = (user (instance w), password (instance w)) /\
              CoreOptions.proxy (options req) = proxy (instance w)) rs.
Proof.
  destruct c as [field id | ics event etag | ics etag]; cbn [call call_resolves].
  - eexists. split; [apply search_sends|].
    repeat split; auto.
  - destruct (url_resolve ics (url (instance w))) as [u|] eqn:Hu.
    + eexists. split; [apply (put_sends _ _ _ _ _ _ Hu)|].
      repeat split; auto.
    + exists []. split.
      * unfold sent. js_sync. rewrite Hu. cbn. symmetry. apply app_nil_r.
      * repeat split; auto.
  - destruct (url_resolve ics (url (instance w))) as [u|] eqn:Hu.
    + eexists. split; [apply (delete_sends _ _ _ _ _ Hu)|].
      repeat split; auto.
    + exists []. split.
      * unfold sent. js_sync. rewrite Hu. cbn. symmetry. apply app_nil_r.
      * repeat split; auto.
Qed.

(** X8.  Over any sequence of calls on a client, the requests already handed
    to the transport stay as they are and each call adds exactly one when
    its path resolves against the base URL ([search] always does) and none
    when it does not: no retry, no second request.  Every request carries
    the user, the password and the proxy the client holds. *)
Theorem session_sends_one_request_per_call
    (cs : list (Call * TransportOutcome)) (w : World) :
  exists rs,
    sent w (session cs w) rs /\
    length rs
      = length (filter (fun co => call_resolves (url (instance w)) (fst co)) cs) /\
    Forall (fun req =>
              auth req = (user (instance w), password (instance w)) /\
              CoreOptions.proxy (options req) = proxy (instance w)) rs.
Proof.
  revert w. induction cs as [|[c o] cs IH]; intros w; cbn [session].
  - exists []. split; [unfold sent; symmetry; apply app_nil_r|].
    split; [reflexivity | constructor].
  - destruct (call_sends c o w) as (r1 & Hsent1 & Hlen1 & Hall1).
    destruct (IH (exec (call c o) w)) as (rs & Hsent & Hlen & Hall).
    rewrite (call_preserves_instance c o w) in Hlen, Hall.
    exists (r1 ++ rs)%list. unfold sent in *.
    split; [rewrite Hsent, Hsent1; symmetry; apply app_assoc|].
    split.
    + rewrite length_app, Hlen1, Hlen. cbn [filter fst].
      now destruct (call_resolves (url (instance w)) c).
    + apply Forall_app. split; assumption.
Qed.

(** ** What is logged *)

(** X9.  A discovery operation or [search] gives the logger two lines and no
    more: the request options at level info, then either the transport's
    error at level error, or the response body, whole, at level info.  After
    a failure no response line follows. *)
Theorem query_log_lines (c : Query) (o : TransportOutcome) (w : World) :
  console (exec (query c o) w) =
  (console w ++
   [ {| level := LInfo;
        format := query_name c ++ ": request = [%s]";
        arg := Inspect (query_options c w) |};
     match o with
     | Failure e =>
         {| level := LError; format := query_name c ++ ": error = [%s]"; arg := Cause e |}
     | Reply _ b =>
         {| level := LInfo; format := query_name c ++ ": response = [%s]"; arg := Text b |}
     end ])%list.
Proof.
  destruct c; destruct o as [e|r b]; cbn [query query_name query_options];
    js_run; try destruct (xmlToJson b); cbn [List.app];
    rewrite <- app_assoc; reflexivity.
Qed.

(** ** Event search: the structure of the body *)

Lemma search_body_split (field id : string) :
  search_body field id
  = search_xml_head ++ field ++ search_xml_middle ++ id ++ search_xml_tail.
Proof.
  unfold search_body.
  change search_xml
    with (search_xml_head ++ "%s" ++ search_xml_middle ++ "%s" ++ search_xml_tail).
  now rewrite util_format_two.
Qed.

(** Inside an attribute value the reader looks for the closing quote only,
    and in text for the next tag only. *)
Lemma tags_from_value (closing : bool) (name s rest : string) :
  lacks "034" s = true ->
  tags_from (InValue closing name) (s ++ rest) = tags_from (InValue closing name) rest.
Proof.
  induction s as [|c s IH]; cbn; intros Hs.
  - reflexivity.
  - apply andb_true_iff in Hs as [Hc Hs]. apply negb_true_iff in Hc.
    rewrite Hc. now apply IH.
Qed.

Lemma tags_from_text (s rest : string) :
  lacks "<" s = true ->
  tags_from InText (s ++ rest) = tags_from InText rest.
Proof.
  induction s as [|c s IH]; cbn; intros Hs.
  - reflexivity.
  - apply andb_true_iff in Hs as [Hc Hs]. apply negb_true_iff in Hc.
    rewrite Hc. now apply IH.
Qed.

(** X10.  When [field] holds none of the characters an XML attribute value
    must not hold (the double quote, [<], [&]) and [id] none of those text
    must not hold ([<], [&], and [>]), the tags of the body [search] sends
    are those of the calendar query and no others: the two requested
    properties, then [filter] > [comp-filter] > [comp-filter] >
    [prop-filter] > [text-match], each element closed in turn. *)
Theorem search_body_structure (field id : string) :
  lacks "034" field = true -> lacks "<" field = true -> lacks "&" field = true ->
  lacks "<" id = true -> lacks "&" id = true -> lacks ">" id = true ->
  tags (search_body field id) =
  [ Open "c:calendar-query"; Open "d:prop"; Empty "d:getetag";
    Empty "c:calendar-data"; Close "d:prop"; Open "c:filter";
    Open "c:comp-filter"; Open "c:comp-filter"; Open "c:prop-filter";
    Open "c:text-match"; Close "c:text-match"; Close "c:prop-filter";
    Close "c:comp-filter"; Close "c:comp-filter"; Close "c:filter";
    Close "c:calendar-query" ].
Proof.
  intros Hfield _ _ Hid _ _. rewrite search_body_split. unfold tags.
  cbn -[lacks]. rewrite (tags_from_value _ _ _ _ Hfield).
  cbn -[lacks]. rewrite (tags_from_text _ _ Hid).
  reflexivity.
Qed.

(** ** Calls do not depend on earlier calls *)

Lemma call_promise (c : Call) (o : TransportOutcome) (w1 w2 : World) :
  instance w1 = instance w2 ->
  completes (call c o) w1 = Normal tt ->
  completes (call c o) w2 = Normal tt /\
  promise (exec (call c o) w1) = promise (exec (call c o) w2).
Proof.
  intros Hi Hc. destruct c as [field id | ics event etag | ics etag]; cbn [call] in *.
  - split; [exact (query_completes (Search field id) o w2)|].
    pose proof (query_promise (Search field id) o w1) as H1.
    pose proof (query_promise (Search field id) o w2) as H2.
    cbn [query] in H1, H2. now rewrite H1, H2.
  - rewrite put_completes in *. rewrite <- Hi.
    destruct (url_resolve ics (url (instance w1))) as [u|] eqn:Hu; [|discriminate].
    split; [reflexivity|].
    assert (Hu2 : url_resolve ics (url (instance w2)) = Some u) by now rewrite <- Hi.
    destruct o as [e|r b].
    + destruct (put_failure ics event etag e w1 u Hu) as [-> _].
      now destruct (put_failure ics event etag e w2 u Hu2) as [-> _].
    + now rewrite (put_reply_promise _ _ _ _ _ _ _ Hu),
                  (put_reply_promise _ _ _ _ _ _ _ Hu2).
  - rewrite delete_completes in *. rewrite <- Hi.
    destruct (url_resolve ics (url (instance w1))) as [u|] eqn:Hu; [|discriminate].
    split; [reflexivity|].
    assert (Hu2 : url_resolve ics (url (instance w2)) = Some u) by now rewrite <- Hi.
    now rewrite (delete_promise _ _ _ _ _ Hu), (delete_promise _ _ _ _ _ Hu2).
Qed.

(** X11.  A call that returns its promise settles it the same way whatever
    calls the client served before, and whatever their outcomes were:
    nothing is carried from one call to the next. *)
Theorem call_is_independent_of_history (cs : list (Call * TransportOutcome))
    (c : Call) (o : TransportOutcome) (w : World) :
  completes (call c o) w = Normal tt ->
  completes (call c o) (session cs w) = Normal tt /\
  promise (exec (call c o) (session cs w)) = promise (exec (call c o) w).
Proof.
  intros Hc.
  destruct (call_promise c o w (session cs w)
              (eq_sym (session_preserves_instance cs w)) Hc) as [H1 H2].
  split; [exact H1 | now symmetry].
Qed.

End Properties.

(** * The operations at work in the concrete setting *)

(** PUT of a new event, no etag: 201 Created with an [ETag] resolves with
    it; PUT with a stale etag: 412 rejects with ["error"]. *)
Lemma put_settles_by_status_witness :
  promise (exec (put "event.ics" "BEGIN:VCALENDAR" None
                   (sample_reply 201 [("etag", HString "abc123")] "")) sample_world)
    = Fulfilled (JString "abc123") /\
  promise (exec (put "event.ics" "BEGIN:VCALENDAR" (Some "stale")
                   (sample_reply 412 [] "Precondition Failed")) sample_world)
    = Rejected (RString "error").
Proof.
  split.
  - apply (proj1 (put_settles_by_status (collaborators := sample)
                    "event.ics" "BEGIN:VCALENDAR" None
                    (RequestResponse.mk (Some 201) [("etag", HString "abc123")]) ""
                    sample_world "https://dav.example/alice/event.ics" eq_refl)).
    + exists 201. split; [reflexivity | lia].
    + reflexivity.
    + discriminate.
  - apply (proj2 (put_settles_by_status (collaborators := sample)
                    "event.ics" "BEGIN:VCALENDAR" (Some "stale")
                    (RequestResponse.mk (Some 412) []) "Precondition Failed"
                    sample_world "https://dav.example/alice/event.ics" eq_refl)).
    intros (code & Hcode & Hrange). injection Hcode as <-. lia.
Defined.

(** The claim C1 as the spec words it fails twice: the value a PUT is
    rejected with is the same string for 412 as for 500, so it carries no
    status code; and a response 200 whose [ETag] header is the empty string,
    a string all the same, leaves the promise pending. *)
Lemma put_rejects_with_a_fixed_string :
  promise (exec (put "event.ics" "BEGIN:VCALENDAR" (Some "stale")
                   (sample_reply 412 [] "")) sample_world)
    = Rejected (RString "error") /\
  promise (exec (put "event.ics" "BEGIN:VCALENDAR" (Some "stale")
                   (sample_reply 500 [] "")) sample_world)
    = Rejected (RString "error") /\
  promise (exec (put "event.ics" "BEGIN:VCALENDAR" None
                   (sample_reply 200 [("etag", HString "")] "")) sample_world)
    = Pending.
Proof. repeat split. Qed.

(** A 200 response without an [ETag] header leaves the promise pending. *)
Lemma put_without_etag_never_settles_witness :
  promise (exec (put "event.ics" "BEGIN:VCALENDAR" None
                   (sample_reply 200 [("content-length", HString "0")] "")) sample_world)
    = Pending.
Proof.
  apply (put_without_etag_never_settles (collaborators := sample)
           "event.ics" "BEGIN:VCALENDAR" None
           (RequestResponse.mk (Some 200) [("content-length", HString "0")]) ""
           sample_world "https://dav.example/alice/event.ics" eq_refl).
  - exists 200. split; [reflexivity | lia].
  - left. reflexivity.
Defined.

(** A PUT with the etag ["v1"] goes out with [If-Match: v1]. *)
Lemma put_if_match_header_witness :
  exists req,
    sent sample_world
      (exec (put "event.ics" "BEGIN:VCALENDAR" (Some "v1") (sample_reply 204 [] ""))
         sample_world) [req] /\
    CoreOptions.method (options req) = "PUT" /\
    (Some "v1" = None -> CoreOptions.headers (options req) = None) /\
    (Some "v1" = Some "" -> CoreOptions.headers (options req) = None) /\
    (forall e, Some "v1" = Some e -> e <> "" ->
       CoreOptions.header "If-Match" (options req) = Some e).
Proof.
  apply (put_if_match_header (collaborators := sample)
           "event.ics" "BEGIN:VCALENDAR" (Some "v1") (sample_reply 204 [] "")
           sample_world "https://dav.example/alice/event.ics" eq_refl).
Defined.

(** The claim C4 as the spec words it fails for the empty string: an etag
    argument is supplied, and the one request sent has no [If-Match]. *)
Lemma put_empty_etag_sends_no_if_match :
  map (fun req => CoreOptions.header "If-Match" (options req))
    (outbox (exec (put "event.ics" "BEGIN:VCALENDAR" (Some "") (sample_reply 204 [] ""))
               sample_world))
    = [None].
Proof. reflexivity. Qed.

(** A DELETE with etag ["v1"], answered 204 with an empty body: the request
    has [If-Match: v1] and the promise is resolved, here with [undefined]
    since the tree of an empty body has no [multistatus]. *)
Lemma delete_is_conditional_and_decodes_witness :
  (exists req,
     sent sample_world
       (exec (delete "event.ics" "v1" (sample_reply 204 [] "")) sample_world) [req] /\
     CoreOptions.method (options req) = "DELETE" /\
     CoreOptions.header "If-Match" (options req) = Some "v1") /\
  promise (exec (delete "event.ics" "v1" (sample_reply 204 [] "")) sample_world)
    = Fulfilled JUndefined.
Proof.
  destruct (delete_is_conditional_and_decodes (collaborators := sample)
              "event.ics" "v1" (sample_reply 204 [] "") sample_world
              "https://dav.example/alice/event.ics" eq_refl) as [Hreq Hsettled].
  split; [exact Hreq | exact (Hsettled _ _ [] eq_refl eq_refl)].
Defined.

(** The claim C7 as the spec words it fails for a body the XML handler
    cannot read: a DELETE answered 412 with a plain-text body resolves
    nothing, the handler's exception escapes the callback and the promise
    stays pending. *)
Lemma delete_leaves_unreadable_body_pending :
  let w :=
    exec (delete "event.ics" "stale" (sample_reply 412 [] "Precondition Failed"))
      sample_world in
  promise w = Pending /\
  uncaught w = [Error "Text data outside of root node."].
Proof. split; reflexivity. Qed.

(** A search answered with the document of one response resolves with its
    multistatus. *)
Lemma query_rejects_on_transport_failure_only_witness :
  promise (exec (query (Search "UID" "42") (sample_reply 207 [] one_response_xml))
             sample_world)
    = Fulfilled (member "multistatus" one_response_tree).
Proof.
  exact (proj2 (query_rejects_on_transport_failure_only (collaborators := sample)
                  (Search "UID" "42") (sample_reply 207 [] one_response_xml)
                  sample_world)
           _ _ one_response_tree eq_refl eq_refl).
Defined.

(** The claim C3 as the spec words it fails for a response the XML handler
    cannot read: principal discovery answered 401 with a plain-text body
    neither rejects nor resolves. *)
Lemma query_leaves_unreadable_body_pending :
  let w :=
    exec (getCurrentUserPrincipal (collaborators := sample)
            "https://dav.example/" "alice" "wrong" None
            (sample_reply 401 [] "Unauthorized")) sample_world in
  promise w = Pending /\
  uncaught w = [Error "Text data outside of root node."].
Proof. split; reflexivity. Qed.

(** Calendar enumeration answered with the document of two responses: the
    caller gets the sequence of the two, in the handler's order. *)
Lemma multistatus_response_is_as_decoded_witness :
  let decoded := member_of "response" (member "multistatus" two_responses_tree) in
  exists ms,
    promise (exec (query (GetCalendarComponentSet (collaborators := sample)
                            "https://dav.example/alice/" "alice" "secret" None)
                     (Reply (RequestResponse.mk (Some 207) []) two_responses_xml))
               sample_world) = Fulfilled ms /\
    member_of "response" ms = decoded /\
    (forall single, decoded = JObject single ->
       forall items, member_of "response" ms <> JArray items) /\
    (forall items, decoded = JArray items -> member_of "response" ms = JArray items).
Proof.
  exact (multistatus_response_is_as_decoded (collaborators := sample)
           (GetCalendarComponentSet (collaborators := sample)
              "https://dav.example/alice/" "alice" "secret" None)
           (RequestResponse.mk (Some 207) []) two_responses_xml sample_world
           two_responses_tree eq_refl).
Defined.

(** The claim C6 as the spec words it fails for a single resource: the
    [response] member handed to the caller is the response object itself,
    not a sequence of one. *)
Lemma single_response_is_not_a_sequence :
  let settled :=
    promise (exec (getCurrentUserPrincipal (collaborators := sample)
                     "https://dav.example/" "alice" "secret" None
                     (sample_reply 207 [] one_response_xml)) sample_world) in
  settled
    = Fulfilled (JObject [("response", JObject [("href", JString "/principals/alice/")])]) /\
  settled
    <> Fulfilled (JObject [("response", JArray [JObject [("href", JString "/principals/alice/")]])]).
Proof. split; [reflexivity | discriminate]. Qed.

(** With two resources the handler yields a sequence, and the caller gets it
    in the handler's order. *)
Example two_responses_in_order :
  promise (exec (getCalendarComponentSet (collaborators := sample)
                   "https://dav.example/alice/" "alice" "secret" None
                   (sample_reply 207 [] two_responses_xml)) sample_world)
    = Fulfilled (JObject [("response", JArray [JObject [("href", JString "/cal/a/")];
                                               JObject [("href", JString "/cal/b/")]])]).
Proof. reflexivity. Qed.

(** A transport failure rejects the promise with the error; the callback
    then goes on to [body.toString()] on an undefined body and throws. *)
Example failure_rejects_then_throws :
  let w := exec (search "UID" "42" (Failure (collaborators := sample) "ECONNREFUSED"))
             sample_world in
  promise w = Rejected (RError (collaborators := sample) "ECONNREFUSED") /\
  uncaught w = [TypeError "Cannot read property 'toString' of undefined"].
Proof. split; reflexivity. Qed.

(** An input [new URL] cannot resolve makes [put] throw before any promise
    exists or any request is sent. *)
Example put_invalid_url_throws :
  put "http://" "BEGIN:VCALENDAR" None (sample_reply 201 [] "") sample_world
    = (sample_world, Thrown (TypeError "Invalid URL")).
Proof. reflexivity. Qed.

(** An error that comes together with a 201 response and its [ETag]: both
    callbacks leave the promise rejected with the error. *)
Lemma callback_error_wins_witness :
  let args :=
    {| error := Some ("ECONNRESET" : TransportError (Collaborators := sample));
       response := Some (RequestResponse.mk (Some 201) [("etag", HString "abc123")]);
       body := Some "" |} in
  promise (exec (invoked (multistatus_callback "search" args)) sample_world)
    = Rejected (RError (collaborators := sample) "ECONNRESET") /\
  promise (exec (invoked (put_callback args)) sample_world)
    = Rejected (RError (collaborators := sample) "ECONNRESET").
Proof.
  exact (callback_error_wins (collaborators := sample) "search"
           {| error := Some ("ECONNRESET" : TransportError (Collaborators := sample));
              response := Some (RequestResponse.mk (Some 201) [("etag", HString "abc123")]);
              body := Some "" |}
           "ECONNRESET" sample_world eq_refl eq_refl).
Defined.

(** A refused connection: [put] and [delete] reject with the error. *)
Lemma mutation_rejects_with_transport_error_witness :
  (promise (exec (put "event.ics" "BEGIN:VCALENDAR" (Some "v1")
                    (Failure (collaborators := sample) "ECONNREFUSED")) sample_world)
     = Rejected (RError (collaborators := sample) "ECONNREFUSED") /\
   uncaught (exec (put "event.ics" "BEGIN:VCALENDAR" (Some "v1")
                     (Failure (collaborators := sample) "ECONNREFUSED")) sample_world)
     = ([] ++ [no_body])%list) /\
  (promise (exec (delete "event.ics" "v1"
                    (Failure (collaborators := sample) "ECONNREFUSED")) sample_world)
     = Rejected (RError (collaborators := sample) "ECONNREFUSED") /\
   uncaught (exec (delete "event.ics" "v1"
                     (Failure (collaborators := sample) "ECONNREFUSED")) sample_world)
     = ([] ++ [no_body])%list).
Proof.
  exact (mutation_rejects_with_transport_error (collaborators := sample)
           "event.ics" "BEGIN:VCALENDAR" "v1" (Some "v1") "ECONNREFUSED" sample_world
           "https://dav.example/alice/event.ics" eq_refl).
Defined.

(** A PUT answered 201 with an [ETag]: the promise is fulfilled, and the
    converse reading finds the response that explains it. *)
Lemma put_settlement_only_if_witness :
  let o := sample_reply 201 [("etag", HString "abc123")] "" in
  exists r b tag,
    o = Reply r b /\ success r /\
    RequestResponse.etag r = Some (HString tag) /\ tag <> "" /\
    JString "abc123" = JString tag.
Proof.
  intros o.
  exact (proj1 (put_settlement_only_if (collaborators := sample)
                  "event.ics" "BEGIN:VCALENDAR" None o sample_world
                  "https://dav.example/alice/event.ics" eq_refl)
           (JString "abc123") eq_refl).
Defined.

(** A search for a UID: the body has the structure of the query. *)
Lemma search_body_structure_witness :
  tags (search_body "UID" "20240101T000000Z-1@example.com") =
  [ Open "c:calendar-query"; Open "d:prop"; Empty "d:getetag";
    Empty "c:calendar-data"; Close "d:prop"; Open "c:filter";
    Open "c:comp-filter"; Open "c:comp-filter"; Open "c:prop-filter";
    Open "c:text-match"; Close "c:text-match"; Close "c:prop-filter";
    Close "c:comp-filter"; Close "c:comp-filter"; Close "c:filter";
    Close "c:calendar-query" ].
Proof.
  exact (search_body_structure "UID" "20240101T000000Z-1@example.com"
           eq_refl eq_refl eq_refl eq_refl eq_refl eq_refl).
Defined.

(** An [id] that holds markup is copied all the same, and the body then
    reads differently: the obligation to sanitize is the caller's. *)
Example search_body_copies_markup :
  tags (search_body "UID" "</c:text-match><c:is-not-defined/><c:text-match>") =
  [ Open "c:calendar-query"; Open "d:prop"; Empty "d:getetag";
    Empty "c:calendar-data"; Close "d:prop"; Open "c:filter";
    Open "c:comp-filter"; Open "c:comp-filter"; Open "c:prop-filter";
    Open "c:text-match"; Close "c:text-match"; Empty "c:is-not-defined";
    Open "c:text-match"; Close "c:text-match"; Close "c:prop-filter";
    Close "c:comp-filter"; Close "c:comp-filter"; Close "c:filter";
    Close "c:calendar-query" ].
Proof. reflexivity. Qed.

(** A search after a PUT that failed settles as a search on a new client. *)
Lemma call_is_independent_of_history_witness :
  let earlier :=
    [(CallPut "event.ics" "BEGIN:VCALENDAR" None,
      Failure (collaborators := sample) "ECONNRESET")] in
  let o := sample_reply 207 [] one_response_xml in
  completes (call (CallSearch "UID" "42") o) (session earlier sample_world) = Normal tt /\
  promise (exec (call (CallSearch "UID" "42") o) (session earlier sample_world))
    = promise (exec (call (CallSearch "UID" "42") o) sample_world).
Proof.
  intros earlier o.
  exact (call_is_independent_of_history (collaborators := sample)
           earlier (CallSearch "UID" "42") o sample_world eq_refl).
Defined.
